(** * Option pricing core of [option_trading_app1.py]

    A shallow embedding of the Black-Scholes pricing function
    [black_scholes] and of the module-level code that clamps the
    time-to-expiration, reports the price and builds the payoff curve.

    Numbers.  Python's [float] and NumPy's [float64] are IEEE-754 binary64
    values.  They are idealised here as real numbers extended with the
    special values [+inf], [-inf] and [nan]: every operation is exact on
    finite operands (rounding and overflow are not modelled, and the two
    zeros are identified), while the special values follow IEEE-754.

    Library functions.  [np.log], [np.sqrt] and [np.exp] are the
    mathematical functions on finite arguments of their domain, and
    [np.linspace] follows NumPy's documented algorithm.
    [scipy.stats.norm.cdf] is a parameter [Phi] of the development;
    properties that depend on what it computes assume that it is symmetric
    about zero, or that it is the standard normal CDF ([is_std_normal_cdf]),
    and the function [std_normal_cdf] built below from the Gaussian
    integral shows that assumption satisfiable.

    Layout.  The model of the program comes first, then the closed form and
    the other notions of the specification, then the analysis the proofs
    rest on, then the properties the specification claims, and last further
    properties read off the code: degenerate contracts, the flow around the
    pricing, the shape of the payoff curve and the provider wrappers. *)

From Stdlib Require Import Reals Lra Lia List String ZArith.
From Stdlib Require Import Ascii Bool.
Import ListNotations.

Open Scope R_scope.

(** ** Floating-point values *)

Inductive flt : Type :=
| Fin (x : R)
| PInf
| NInf
| NaN.

(** [signed_inf x pos] is the infinity whose sign is the sign of [x],
    flipped when [pos] is [false]; it is [nan] when [x] is zero. *)
Definition signed_inf (x : R) (pos : bool) : flt :=
  if Rlt_dec 0 x then (if pos then PInf else NInf)
  else if Rlt_dec x 0 then (if pos then NInf else PInf)
  else NaN.

Definition fneg (a : flt) : flt :=
  match a with
  | Fin x => Fin (- x)
  | PInf => NInf
  | NInf => PInf
  | NaN => NaN
  end.

Definition fadd (a b : flt) : flt :=
  match a, b with
  | NaN, _ | _, NaN => NaN
  | Fin x, Fin y => Fin (x + y)
  | PInf, NInf | NInf, PInf => NaN
  | PInf, _ | _, PInf => PInf
  | NInf, _ | _, NInf => NInf
  end.

Definition fsub (a b : flt) : flt := fadd a (fneg b).

Definition fmul (a b : flt) : flt :=
  match a, b with
  | NaN, _ | _, NaN => NaN
  | Fin x, Fin y => Fin (x * y)
  | Fin x, PInf | PInf, Fin x => signed_inf x true
  | Fin x, NInf | NInf, Fin x => signed_inf x false
  | PInf, PInf | NInf, NInf => PInf
  | PInf, NInf | NInf, PInf => NInf
  end.

(** IEEE-754 division: a finite non-zero value over zero is an infinity,
    zero over zero and infinity over infinity are [nan]. *)
Definition fdiv (a b : flt) : flt :=
  match a, b with
  | NaN, _ | _, NaN => NaN
  | Fin x, Fin y => if Req_dec_T y 0 then signed_inf x true else Fin (x / y)
  | Fin _, PInf | Fin _, NInf => Fin 0
  | PInf, Fin y => if Rlt_dec y 0 then NInf else PInf
  | NInf, Fin y => if Rlt_dec y 0 then PInf else NInf
  | _, _ => NaN
  end.

(** [x ** 2] *)
Definition fsqr (a : flt) : flt :=
  match a with
  | Fin x => Fin (x * x)
  | PInf | NInf => PInf
  | NaN => NaN
  end.

(** [np.log] *)
Definition flog (a : flt) : flt :=
  match a with
  | Fin x => if Rlt_dec 0 x then Fin (ln x)
             else if Req_dec_T x 0 then NInf else NaN
  | PInf => PInf
  | NInf | NaN => NaN
  end.

(** [np.sqrt] *)
Definition fsqrt (a : flt) : flt :=
  match a with
  | Fin x => if Rlt_dec x 0 then NaN else Fin (sqrt x)
  | PInf => PInf
  | NInf | NaN => NaN
  end.

(** [np.exp] *)
Definition fexp (a : flt) : flt :=
  match a with
  | Fin x => Fin (exp x)
  | PInf => PInf
  | NInf => Fin 0
  | NaN => NaN
  end.

(** [np.maximum]: propagates [nan]. *)
Definition fmax (a b : flt) : flt :=
  match a, b with
  | NaN, _ | _, NaN => NaN
  | Fin x, Fin y => Fin (Rmax x y)
  | PInf, _ | _, PInf => PInf
  | NInf, c | c, NInf => c
  end.

(** [a <= b]: every comparison with [nan] is false. *)
Definition fle (a b : flt) : bool :=
  match a, b with
  | NaN, _ | _, NaN => false
  | Fin x, Fin y => if Rle_dec x y then true else false
  | NInf, _ | _, PInf => true
  | _, _ => false
  end.

(** [a == 0] *)
Definition fis_zero (a : flt) : bool :=
  match a with
  | Fin x => if Req_dec_T x 0 then true else false
  | _ => false
  end.

(** ** Python values, exceptions and the ambient state *)

(** The values the pricing code receives: [None] (the spot price when no
    stock data came back), a Python [float], or a NumPy [float64] scalar
    (what pandas and NumPy hand out). *)
Inductive pyval : Type :=
| PyNone
| PyFloat (v : flt)
| NpFloat (v : flt).

Inductive exn : Type :=
| TypeError
| ZeroDivisionError.

Inductive result (A : Type) : Type :=
| Ok (a : A)
| Raise (e : exn).
Arguments Ok {A} a.
Arguments Raise {A} e.

Definition rbind {A B : Type} (m : result A) (k : A -> result B) : result B :=
  match m with
  | Ok a => k a
  | Raise e => Raise e
  end.

Declare Scope py_scope.
Delimit Scope py_scope with py.
Notation "x <- m ;; k" := (rbind m (fun x => k))
  (at level 61, m at next level, right associativity) : py_scope.

(** What the page shows: [st.error] banners (a message and, when the
    message interpolates one, the exception) and [st.write] lines carrying
    a value. *)
Inductive event : Type :=
| StError (msg : string) (cause : option exn)
| StWrite (label : string) (v : pyval).

(** The ambient state: the wall clock read by [datetime.today()], in
    microseconds, and the page rendered so far. *)
Record world : Type := mkWorld {
  clock : Z;
  ui : list event
}.

Definition Py (A : Type) : Type := world -> result A * world.

Definition ret {A : Type} (a : A) : Py A := fun w => (Ok a, w).

Definition bind {A B : Type} (m : Py A) (k : A -> Py B) : Py B :=
  fun w => match m w with
           | (Ok a, w') => k a w'
           | (Raise e, w') => (Raise e, w')
           end.

Definition lift {A : Type} (m : result A) : Py A := fun w => (m, w).

(** [try: body except Exception as e: handler e] *)
Definition try_except {A : Type} (body : Py A) (handler : exn -> Py A) : Py A :=
  fun w => match body w with
           | (Ok a, w') => (Ok a, w')
           | (Raise e, w') => handler e w'
           end.

Definition emit (ev : event) : Py unit :=
  fun w => (Ok tt, mkWorld (clock w) (ui w ++ [ev])).

Definition st_error (msg : string) (cause : option exn) : Py unit :=
  emit (StError msg cause).



Notation "x <-- m ;;; k" := (bind m (fun x => k))
  (at level 61, m at next level, right associativity) : py_scope.
Notation "m ;;; k" := (bind m (fun _ => k))
  (at level 61, right associativity) : py_scope.

(** *** Arithmetic on Python values

    An operation between two Python floats is Python's: division by zero
    raises [ZeroDivisionError].  As soon as one operand is a NumPy scalar
    the operation is NumPy's: the result is a NumPy scalar and division by
    zero yields an infinity or [nan] (with a warning, not an exception).
    [None] supports no arithmetic: [TypeError]. *)

Definition py_arith (op : flt -> flt -> flt) (a b : pyval) : result pyval :=
  match a, b with
  | PyFloat x, PyFloat y => Ok (PyFloat (op x y))
  | PyFloat x, NpFloat y | NpFloat x, PyFloat y | NpFloat x, NpFloat y =>
      Ok (NpFloat (op x y))
  | _, _ => Raise TypeError
  end.

Definition py_add : pyval -> pyval -> result pyval := py_arith fadd.
Definition py_sub : pyval -> pyval -> result pyval := py_arith fsub.
Definition py_mul : pyval -> pyval -> result pyval := py_arith fmul.

Definition py_div (a b : pyval) : result pyval :=
  match a, b with
  | PyFloat x, PyFloat y =>
      if fis_zero y then Raise ZeroDivisionError else Ok (PyFloat (fdiv x y))
  | _, _ => py_arith fdiv a b
  end.

Definition py_unary (op : flt -> flt) (a : pyval) : result pyval :=
  match a with
  | PyNone => Raise TypeError
  | PyFloat x => Ok (PyFloat (op x))
  | NpFloat x => Ok (NpFloat (op x))
  end.

Definition py_neg : pyval -> result pyval := py_unary fneg.
Definition py_sqr : pyval -> result pyval := py_unary fsqr.

(** A NumPy universal function applied to a scalar returns a NumPy scalar. *)
Definition np_ufunc (op : flt -> flt) (a : pyval) : result pyval :=
  match a with
  | PyNone => Raise TypeError
  | PyFloat x | NpFloat x => Ok (NpFloat (op x))
  end.

Definition np_log : pyval -> result pyval := np_ufunc flog.
Definition np_sqrt : pyval -> result pyval := np_ufunc fsqrt.
Definition np_exp : pyval -> result pyval := np_ufunc fexp.

Definition py_le (a b : pyval) : result bool :=
  match a, b with
  | PyFloat x, PyFloat y | PyFloat x, NpFloat y
  | NpFloat x, PyFloat y | NpFloat x, NpFloat y => Ok (fle x y)
  | _, _ => Raise TypeError
  end.

Definition np_nan : pyval := PyFloat NaN.

Definition as_flt (v : pyval) : option flt :=
  match v with
  | PyNone => None
  | PyFloat x | NpFloat x => Some x
  end.

(** [v] is a float (of either kind) holding the finite real [x]. *)
Definition holds (v : pyval) (x : R) : Prop := as_flt v = Some (Fin x).

Section Pricing.

(** [scipy.stats.norm.cdf] on finite arguments. *)
Variable Phi : R -> R.

Definition fcdf (a : flt) : flt :=
  match a with
  | Fin x => Fin (Phi x)
  | PInf => Fin 1
  | NInf => Fin 0
  | NaN => NaN
  end.

Definition norm_cdf : pyval -> result pyval := np_ufunc fcdf.

Local Open Scope py_scope.

(** ** [black_scholes] *)

(** [d1 = (np.log(S / K) + (r + 0.5 * sigma ** 2) * T) / (sigma * np.sqrt(T))] *)
Definition bs_d1 (S K T r sigma : pyval) : result pyval :=
  q <- py_div S K ;;
  lg <- np_log q ;;
  s2 <- py_sqr sigma ;;
  h <- py_mul (PyFloat (Fin 0.5)) s2 ;;
  a <- py_add r h ;;
  aT <- py_mul a T ;;
  num <- py_add lg aT ;;
  sq <- np_sqrt T ;;
  den <- py_mul sigma sq ;;
  py_div num den.

(** [d2 = d1 - sigma * np.sqrt(T)] *)
Definition bs_d2 (d1 T sigma : pyval) : result pyval :=
  sq <- np_sqrt T ;;
  v <- py_mul sigma sq ;;
  py_sub d1 v.

(** [S * norm.cdf(d1) - K * np.exp(-r * T) * norm.cdf(d2)] *)
Definition bs_call (S K T r d1 d2 : pyval) : result pyval :=
  c1 <- norm_cdf d1 ;;
  lhs <- py_mul S c1 ;;
  nr <- py_neg r ;;
  nrT <- py_mul nr T ;;
  disc <- np_exp nrT ;;
  kd <- py_mul K disc ;;
  c2 <- norm_cdf d2 ;;
  rhs <- py_mul kd c2 ;;
  py_sub lhs rhs.

(** [K * np.exp(-r * T) * norm.cdf(-d2) - S * norm.cdf(-d1)] *)
Definition bs_put (S K T r d1 d2 : pyval) : result pyval :=
  nr <- py_neg r ;;
  nrT <- py_mul nr T ;;
  disc <- np_exp nrT ;;
  kd <- py_mul K disc ;;
  nd2 <- py_neg d2 ;;
  c2 <- norm_cdf nd2 ;;
  lhs <- py_mul kd c2 ;;
  nd1 <- py_neg d1 ;;
  c1 <- norm_cdf nd1 ;;
  rhs <- py_mul S c1 ;;
  py_sub lhs rhs.

(** The body of the [try] block. *)
Definition bs_body (S K T r sigma : pyval) (option_type : string) : result pyval :=
  d1 <- bs_d1 S K T r sigma ;;
  d2 <- bs_d2 d1 T sigma ;;
  if String.eqb option_type "call"
  then bs_call S K T r d1 d2
  else bs_put S K T r d1 d2.

Definition bs_error_msg : string := "Error in Black-Scholes calculation: ".

Definition black_scholes (S K T r sigma : pyval) (option_type : string) : Py pyval :=
  try_except
    (lift (bs_body S K T r sigma option_type))
    (fun e => st_error bs_error_msg (Some e) ;;; ret np_nan).

End Pricing.

(** ** The sample grid and the payoff curve (module level) *)

Definition ndarray : Type := list flt.

(** [np.linspace(start, stop, num)] with NumPy's defaults: [num] samples
    [i * step + start] with [step = (stop - start) / (num - 1)], the last
    one overwritten with [stop] when there is more than one.  With a single
    sample there is no step and the sample is [0 * (stop - start) + start]. *)
Definition linspace (start stop : flt) (num : nat) : ndarray :=
  let delta := fsub stop start in
  let div := (num - 1)%nat in
  let step := if (0 <? div)%nat then fdiv delta (Fin (INR div)) else delta in
  let y := map (fun i => fadd (fmul (Fin (INR i)) step) start) (seq 0 num) in
  if (1 <? num)%nat then removelast y ++ [stop] else y.

Definition np_linspace (start stop : pyval) (num : nat) : result ndarray :=
  match as_flt start, as_flt stop with
  | Some a, Some b => Ok (linspace a b num)
  | _, _ => Raise TypeError
  end.

(** [arr - scalar] and [scalar - arr], elementwise *)
Definition arr_sub_scalar (a : ndarray) (s : pyval) : result ndarray :=
  match as_flt s with
  | Some x => Ok (map (fun y => fsub y x) a)
  | None => Raise TypeError
  end.

Definition scalar_sub_arr (s : pyval) (a : ndarray) : result ndarray :=
  match as_flt s with
  | Some x => Ok (map (fun y => fsub x y) a)
  | None => Raise TypeError
  end.

(** [np.maximum(arr, 0)] *)
Definition np_maximum0 (a : ndarray) : ndarray :=
  map (fun y => fmax y (Fin 0)) a.

Local Open Scope py_scope.

(** Lines 160-164: the grid [S] and the array [payoff]. *)
Definition payoff_curve (current_price strike bs_price : pyval)
    (option_type : string) : result (ndarray * ndarray) :=
  lo <- py_mul current_price (PyFloat (Fin 0.5)) ;;
  hi <- py_mul current_price (PyFloat (Fin 1.5)) ;;
  S <- np_linspace lo hi 100 ;;
  if String.eqb option_type "call" then
    d <- arr_sub_scalar S strike ;;
    payoff <- arr_sub_scalar (np_maximum0 d) bs_price ;;
    Ok (S, payoff)
  else
    d <- scalar_sub_arr strike S ;;
    payoff <- arr_sub_scalar (np_maximum0 d) bs_price ;;
    Ok (S, payoff).

(** ** Time to expiration, pricing and plotting (lines 144-164) *)

(** Datetimes are counted in microseconds; [timedelta.days] is the floor
    of the difference in days. *)
Definition microseconds_per_day : Z := 86400000000.

Definition timedelta_days (later earlier : Z) : Z :=
  ((later - earlier) / microseconds_per_day)%Z.

(** [T = (expiration_date - today).days / 365] *)
Definition time_to_expiration (expiration_date today : Z) : pyval :=
  PyFloat (Fin (IZR (timedelta_days expiration_date today) / 365)).

Definition future_msg : string := "Expiration date must be in the future.".

(** [if T <= 0: st.error(...); T = 0.01] *)
Definition clamp_T (T : pyval) : Py pyval :=
  b <-- lift (py_le T (PyFloat (Fin 0))) ;;;
  if (b : bool) then st_error future_msg None ;;; ret (PyFloat (Fin 0.01))
  else ret T.



Section Script.

Variable Phi : R -> R.


End Script.

(** ** The sidebar ticker and the provider wrappers (lines 21-58) *)

(** [str.upper] on ASCII text: the letters a-z become A-Z and every other
    character is kept.  (Python's method also maps letters outside ASCII;
    those are outside this model.) *)
Definition is_lower (c : ascii) : bool :=
  (97 <=? nat_of_ascii c)%nat && (nat_of_ascii c <=? 122)%nat.

Definition upper_ascii (c : ascii) : ascii :=
  if is_lower c then ascii_of_nat (nat_of_ascii c - 32) else c.

Fixpoint py_upper (s : string) : string :=
  match s with
  | EmptyString => EmptyString
  | String c rest => String (upper_ascii c) (py_upper rest)
  end.

Fixpoint is_ascii_text (s : string) : bool :=
  match s with
  | EmptyString => true
  | String c rest => (nat_of_ascii c <? 128)%nat && is_ascii_text rest
  end.

Fixpoint has_lower (s : string) : bool :=
  match s with
  | EmptyString => false
  | String c rest => is_lower c || has_lower rest
  end.

(** [user_input_ticker]: the text typed in the sidebar, in upper case. *)
Definition user_input_ticker (typed : string) : string := py_upper typed.

Section Provider.

(** A pandas table, left abstract, and the empty table [pd.DataFrame()]. *)
Variable DataFrame : Type.
Variable empty_frame : DataFrame.

(** [quandl.get(code, authtoken=key)]: the table, or the text of the
    exception it raised. *)
Variable quandl_get : string -> string -> string + DataFrame.

Definition stock_error_msg : string := "Error fetching stock data: ".
Definition chain_error_msg : string := "Error fetching option chain: ".

Definition get_stock_data (ticker api_key : string) : Py DataFrame :=
  fun w =>
    match quandl_get ("EOD/" ++ ticker) api_key with
    | inr data => (Ok data, w)
    | inl e => (Ok empty_frame,
                mkWorld (clock w) (ui w ++ [StError (stock_error_msg ++ e) None]))
    end.

Definition calls_code (ticker expiration : string) : string :=
  "OPTIONMETRICS/" ++ ticker ++ "_CALLS_" ++ expiration.

Definition puts_code (ticker expiration : string) : string :=
  "OPTIONMETRICS/" ++ ticker ++ "_PUTS_" ++ expiration.

Definition get_option_chain (ticker expiration api_key : string)
    : Py (DataFrame * DataFrame) :=
  fun w =>
    let failed e :=
      (Ok (empty_frame, empty_frame),
       mkWorld (clock w) (ui w ++ [StError (chain_error_msg ++ e) None])) in
    match quandl_get (calls_code ticker expiration) api_key with
    | inl e => failed e
    | inr option_calls =>
        match quandl_get (puts_code ticker expiration) api_key with
        | inl e => failed e
        | inr option_puts => (Ok (option_calls, option_puts), w)
        end
    end.

End Provider.

(** ** The closed form, as the specification writes it *)

Section ClosedForm.

Variable Phi : R -> R.

Definition spec_d1 (S K T r sigma : R) : R :=
  (ln (S / K) + (r + sigma ^ 2 / 2) * T) / (sigma * sqrt T).

Definition spec_d2 (S K T r sigma : R) : R :=
  spec_d1 S K T r sigma - sigma * sqrt T.

Definition spec_call (S K T r sigma : R) : R :=
  S * Phi (spec_d1 S K T r sigma)
  - K * exp (- (r * T)) * Phi (spec_d2 S K T r sigma).

Definition spec_put (S K T r sigma : R) : R :=
  K * exp (- (r * T)) * Phi (- spec_d2 S K T r sigma)
  - S * Phi (- spec_d1 S K T r sigma).

Definition spec_price (S K T r sigma : R) (option_type : string) : R :=
  if String.eqb option_type "call" then spec_call S K T r sigma
  else spec_put S K T r sigma.

End ClosedForm.

(** Profit of a long position held to expiration, as the specification
    writes it. *)
Definition spec_profit (option_type : string) (K price S' : R) : R :=
  if String.eqb option_type "call" then Rmax (S' - K) 0 - price
  else Rmax (K - S') 0 - price.

(** What the specification asks of a sample grid of [n] points over
    [[low, high]]: exactly [n] points, the first at [low], the last at
    [high], strictly ascending, evenly spaced. *)
Definition grid_spec (low high : R) (n : nat) (xs : list R) : Prop :=
  List.length xs = n
  /\ nth 0 xs 0 = low
  /\ nth (n - 1) xs 0 = high
  /\ (forall i, (S i < n)%nat -> nth i xs 0 < nth (S i) xs 0)
  /\ (forall i, (S i < n)%nat ->
        nth (S i) xs 0 - nth i xs 0 = (high - low) / INR (n - 1)).

(** The grid of [linspace] on finite endpoints, over the reals. *)
Definition rgrid (a b : R) (n : nat) : list R :=
  map (fun i => a + INR i * ((b - a) / INR (n - 1))) (seq 0 (n - 1)) ++ [b].

(** The standard normal density, and what it means for a function to be
    the standard normal CDF: it starts from one half at zero and grows at
    the rate of the density. *)
Definition gauss (x : R) : R := exp (- (x * x) / 2).

Definition npdf (x : R) : R := gauss x / sqrt (2 * PI).

Record is_std_normal_cdf (Phi : R -> R) : Prop := {
  cdf_at_zero : Phi 0 = 1 / 2;
  cdf_deriv : forall x, derivable_pt_lim Phi x (npdf x)
}.

(** [black_scholes] returns the finite price [x], raising nothing and
    leaving the page as it was. *)
Definition prices (Phi : R -> R) (S K T r sigma : pyval) (option_type : string)
    (x : R) : Prop :=
  forall w, black_scholes Phi S K T r sigma option_type w
            = (Ok (NpFloat (Fin x)), w).

Definition is_float (v : pyval) : Prop := exists x, as_flt v = Some x.

(** An empty page at the epoch. *)
Definition blank : world := mkWorld 0 [].

(** * Analysis background *)

(** Consequences of the mean value theorem. *)
Lemma deriv_nonneg_incr (f f' : R -> R) (a b : R) :
  a <= b ->
  (forall c, a <= c <= b -> derivable_pt_lim f c (f' c)) ->
  (forall c, a < c < b -> 0 <= f' c) ->
  f a <= f b.
Proof.
  intros Hab Hd Hpos.
  destruct (Req_dec a b) as [-> | Hne]; [lra |].
  assert (Hlt : a < b) by lra.
  destruct (MVT_cor2 f f' a b Hlt Hd) as (c & Heq & Hc).
  specialize (Hpos c Hc).
  assert (0 <= f' c * (b - a)) by (apply Rmult_le_pos; lra).
  lra.
Qed.



Lemma Rabs_le_bounds (a b : R) : Rabs a <= b -> - b <= a <= b.
Proof. unfold Rabs. destruct (Rcase_abs a); lra. Qed.


(** ** The integral of a continuous function *)

Section ContinuousIntegral.

Variable f : R -> R.
Hypothesis f_cont : continuity f.

Lemma cont_integrable (a b : R) : Riemann_integrable f a b.
Proof.
  destruct (Rle_dec a b) as [Hab | Hab].
  - apply continuity_implies_RiemannInt; [exact Hab |].
    intros x _; apply f_cont.
  - apply RiemannInt_P1.
    apply continuity_implies_RiemannInt; [lra |].
    intros x _; apply f_cont.
Qed.

Definition cint (a b : R) : R := RiemannInt (cont_integrable a b).

Lemma cint_eq (a b : R) (pr : Riemann_integrable f a b) : RiemannInt pr = cint a b.
Proof. apply RiemannInt_P5. Qed.

Lemma cint_refl (a : R) : cint a a = 0.
Proof. apply RiemannInt_P9. Qed.

Lemma cint_chasles (a b c : R) : cint a b + cint b c = cint a c.
Proof. apply RiemannInt_P26. Qed.

(** Fundamental theorem of calculus, first form. *)
Lemma cint_deriv (a x : R) : derivable_pt_lim (fun y => cint a y) x (f x).
Proof.
  set (lo := Rmin a x - 1). set (hi := Rmax a x + 1).
  assert (Hx : lo < x < hi).
  { unfold lo, hi. pose proof (Rmin_r a x). pose proof (Rmax_r a x). lra. }
  assert (Ha : lo < a < hi).
  { unfold lo, hi. pose proof (Rmin_l a x). pose proof (Rmax_l a x). lra. }
  assert (Hlh : lo <= hi) by lra.
  assert (C0 : forall y, lo <= y <= hi -> continuity_pt f y)
    by (intros y _; apply f_cont).
  pose proof (RiemannInt_P27 Hlh C0 Hx) as HP.
  replace (f x) with (0 + f x) by ring.
  apply (derivable_pt_lim_locally_ext
           (fun y => (- cint lo a) + primitive Hlh (FTC_P1 Hlh C0) y)
           (fun y => cint a y) x lo hi).
  - exact Hx.
  - intros y Hy. unfold primitive.
    destruct (Rle_dec lo y) as [Hay | Hay]; [| lra].
    destruct (Rle_dec y hi) as [Hyb | Hyb]; [| lra].
    rewrite cint_eq, <- (cint_chasles lo a y). ring.
  - apply (derivable_pt_lim_plus (fct_cte _) _ x 0 (f x)).
    + apply derivable_pt_lim_const.
    + exact HP.
Qed.



End ContinuousIntegral.


(** ** The Gaussian integral *)



Lemma exp_quad_deriv (c y : R) :
  derivable_pt_lim (fun z => exp (- (z * z) * c / 2)) y
    (exp (- (y * y) * c / 2) * (- y * c)).
Proof.
  apply (derivable_pt_lim_comp (fun z => - (z * z) * c / 2) exp).
  - replace (- y * c) with (- c / 2 * (1 * y + y * 1)) by field.
    apply (derivable_pt_lim_ext (fun z => - c / 2 * (z * z))).
    { intros z; field. }
    apply derivable_pt_lim_scal.
    apply (derivable_pt_lim_mult id id y 1 1); apply derivable_pt_lim_id.
  - apply derivable_pt_lim_exp.
Qed.

Lemma gauss_deriv (x : R) : derivable_pt_lim gauss x (- x * gauss x).
Proof.
  unfold gauss.
  apply (derivable_pt_lim_ext (fun z => exp (- (z * z) * 1 / 2))).
  { intros z. f_equal. field. }
  replace (- x * exp (- (x * x) / 2)) with (exp (- (x * x) * 1 / 2) * (- x * 1)).
  - apply exp_quad_deriv.
  - replace (- (x * x) * 1 / 2) with (- (x * x) / 2) by field. ring.
Qed.

Lemma gauss_continuity : continuity gauss.
Proof.
  intros x. apply derivable_continuous_pt. exists (- x * gauss x). apply gauss_deriv.
Qed.














Definition gauss_int (x : R) : R := cint gauss gauss_continuity 0 x.

Lemma gauss_int_0 : gauss_int 0 = 0.
Proof. apply cint_refl. Qed.

Lemma gauss_int_deriv (x : R) : derivable_pt_lim gauss_int x (gauss x).
Proof. apply (cint_deriv gauss gauss_continuity 0 x). Qed.







(** ** The standard normal CDF *)

Definition std_normal_cdf (x : R) : R := 1 / 2 + gauss_int x / sqrt (2 * PI).

Lemma sqrt_2PI_pos : 0 < sqrt (2 * PI).
Proof. apply sqrt_lt_R0. pose proof PI_RGT_0. lra. Qed.




Lemma std_normal_cdf_is_cdf : is_std_normal_cdf std_normal_cdf.
Proof.
  split.
  - unfold std_normal_cdf. rewrite gauss_int_0. unfold Rdiv. ring.
  - intros x. unfold std_normal_cdf, npdf.
    replace (gauss x / sqrt (2 * PI)) with (0 + / sqrt (2 * PI) * gauss x)
      by (unfold Rdiv; ring).
    apply (derivable_pt_lim_plus (fct_cte (1 / 2)) (fun y => gauss_int y / sqrt (2 * PI))).
    + apply derivable_pt_lim_const.
    + apply (derivable_pt_lim_ext (fun y => / sqrt (2 * PI) * gauss_int y)).
      { intros z. unfold Rdiv. ring. }
      apply derivable_pt_lim_scal. apply gauss_int_deriv.
Qed.


Section AnyNormalCdf.

Variable Phi : R -> R.
Hypothesis HPhi : is_std_normal_cdf Phi.




End AnyNormalCdf.

(** ** Numerical bounds *)

Lemma PI_bounds_fine : 3.14159 < PI < 3.14160.
Proof.
  pose proof (PI_2_3_7_ineq 2) as [Hlo Hhi].
  unfold sum_f_R0, tg_alt, PI_2_3_7_tg, Ratan_seq in Hlo, Hhi.
  simpl in Hlo, Hhi.
  split; lra.
Qed.

Lemma odd_quintic_deriv (a b c x : R) :
  derivable_pt_lim (fun y => a * y + b * y ^ 3 + c * y ^ 5) x
    (a + 3 * b * x ^ 2 + 5 * c * x ^ 4).
Proof.
  replace (a + 3 * b * x ^ 2 + 5 * c * x ^ 4)
    with (a * 1 + b * (INR 3 * x ^ pred 3) + c * (INR 5 * x ^ pred 5))
    by (simpl; ring).
  apply (derivable_pt_lim_plus (fun y => a * y + b * y ^ 3) (fun y => c * y ^ 5)).
  - apply (derivable_pt_lim_plus (fun y => a * y) (fun y => b * y ^ 3)).
    + apply (derivable_pt_lim_scal id a x 1). apply derivable_pt_lim_id.
    + apply (derivable_pt_lim_scal (fun y => y ^ 3) b x). apply derivable_pt_lim_pow.
  - apply (derivable_pt_lim_scal (fun y => y ^ 5) c x). apply derivable_pt_lim_pow.
Qed.

Lemma inv_sqrt_2PI_bounds : 0.39894 < / sqrt (2 * PI) < 0.398944.
Proof.
  pose proof PI_bounds_fine as [Hlo Hhi].
  assert (H1 : 2.50662 < sqrt (2 * PI)).
  { rewrite <- (sqrt_square 2.50662) by lra. apply sqrt_lt_1; nra. }
  assert (H2 : sqrt (2 * PI) < 2.50664).
  { rewrite <- (sqrt_square 2.50664) by lra. apply sqrt_lt_1; nra. }
  split.
  - apply Rlt_trans with (/ 2.50664); [lra |].
    apply Rinv_lt_contravar; [nra | exact H2].
  - apply Rlt_trans with (/ 2.50662); [| lra].
    apply Rinv_lt_contravar; [nra | exact H1].
Qed.

(** Second-order bounds on the exponential of a non-positive argument. *)
Lemma exp_neg_upper (u : R) : 0 <= u -> exp (- u) <= 1 - u + u ^ 2 / 2.
Proof.
  intros Hu.
  pose proof (deriv_nonneg_incr
                (fun y => 1 - y + y ^ 2 / 2 - exp (- y))
                (fun y => (0 - 1 + (INR 2 * y ^ pred 2) / 2) - exp (- y) * (- 1))
                0 u Hu) as H.
  cbv beta in H. rewrite Ropp_0, exp_0 in H.
  assert (0 <= 1 - u + u ^ 2 / 2 - exp (- u)); [| lra].
  replace 0 with (1 - 0 + 0 ^ 2 / 2 - 1) at 1 by (simpl; lra).
  apply H.
  - intros c _.
    apply (derivable_pt_lim_minus (fun y => 1 - y + y ^ 2 / 2) (fun y => exp (- y))).
    + apply (derivable_pt_lim_plus (fun y => 1 - y) (fun y => y ^ 2 / 2)).
      * apply (derivable_pt_lim_minus (fct_cte 1) id).
        -- apply derivable_pt_lim_const.
        -- apply derivable_pt_lim_id.
      * apply (derivable_pt_lim_ext (fun y => / 2 * y ^ 2)); [intros; field |].
        replace (INR 2 * c ^ pred 2 / 2) with (/ 2 * (INR 2 * c ^ pred 2)) by field.
        apply (derivable_pt_lim_scal (fun y => y ^ 2)). apply derivable_pt_lim_pow.
    + apply (derivable_pt_lim_comp (fun y => - y) exp).
      * apply (derivable_pt_lim_opp id c 1). apply derivable_pt_lim_id.
      * apply derivable_pt_lim_exp.
  - intros c Hc. pose proof (exp_ineq1_le (- c)). simpl. lra.
Qed.

Lemma exp_neg_lower (u : R) : 1 - u <= exp (- u).
Proof. pose proof (exp_ineq1_le (- u)). lra. Qed.

Lemma gauss_lower (t : R) : 1 - t ^ 2 / 2 <= gauss t.
Proof.
  unfold gauss. replace (- (t * t) / 2) with (- (t ^ 2 / 2)) by field.
  apply exp_neg_lower.
Qed.

Lemma gauss_upper (t : R) : gauss t <= 1 - t ^ 2 / 2 + t ^ 4 / 8.
Proof.
  unfold gauss. replace (- (t * t) / 2) with (- (t ^ 2 / 2)) by field.
  replace (t ^ 4 / 8) with ((t ^ 2 / 2) ^ 2 / 2) by field.
  apply exp_neg_upper. nra.
Qed.

Section CdfBounds.

Variable Phi : R -> R.
Hypothesis HPhi : is_std_normal_cdf Phi.

Definition cubic_lower (x : R) : R := 1 * x + (- / 6) * x ^ 3 + 0 * x ^ 5.
Definition quintic_upper (x : R) : R := 1 * x + (- / 6) * x ^ 3 + / 40 * x ^ 5.

Lemma cdf_minus_cubic_incr (x y : R) :
  x <= y ->
  Phi x - / sqrt (2 * PI) * cubic_lower x <= Phi y - / sqrt (2 * PI) * cubic_lower y.
Proof.
  intros Hxy.
  apply (deriv_nonneg_incr
           (fun z => Phi z - / sqrt (2 * PI) * cubic_lower z)
           (fun z => npdf z
                     - / sqrt (2 * PI) * (1 + 3 * (- / 6) * z ^ 2 + 5 * 0 * z ^ 4))
           x y Hxy).
  - intros c _.
    apply (derivable_pt_lim_minus Phi (fun z => / sqrt (2 * PI) * cubic_lower z)).
    + apply (cdf_deriv Phi HPhi).
    + apply (derivable_pt_lim_scal cubic_lower). apply odd_quintic_deriv.
  - intros c _. unfold npdf.
    pose proof (gauss_lower c). pose proof sqrt_2PI_pos as Hs.
    apply Rinv_0_lt_compat in Hs. unfold Rdiv. nra.
Qed.

Lemma quintic_minus_cdf_incr (x y : R) :
  x <= y ->
  / sqrt (2 * PI) * quintic_upper x - Phi x <= / sqrt (2 * PI) * quintic_upper y - Phi y.
Proof.
  intros Hxy.
  apply (deriv_nonneg_incr
           (fun z => / sqrt (2 * PI) * quintic_upper z - Phi z)
           (fun z => / sqrt (2 * PI) * (1 + 3 * (- / 6) * z ^ 2 + 5 * / 40 * z ^ 4)
                     - npdf z)
           x y Hxy).
  - intros c _.
    apply (derivable_pt_lim_minus (fun z => / sqrt (2 * PI) * quintic_upper z) Phi).
    + apply (derivable_pt_lim_scal quintic_upper). apply odd_quintic_deriv.
    + apply (cdf_deriv Phi HPhi).
  - intros c _. unfold npdf.
    pose proof (gauss_upper c). pose proof sqrt_2PI_pos as Hs.
    apply Rinv_0_lt_compat in Hs. unfold Rdiv. nra.
Qed.

Lemma cubic_lower_0 : cubic_lower 0 = 0.
Proof. unfold cubic_lower; simpl; ring. Qed.

Lemma quintic_upper_0 : quintic_upper 0 = 0.
Proof. unfold quintic_upper; simpl; ring. Qed.

Lemma cdf_lower_pos (x : R) :
  0 <= x -> 1 / 2 + / sqrt (2 * PI) * cubic_lower x <= Phi x.
Proof.
  intros Hx. pose proof (cdf_minus_cubic_incr 0 x Hx) as H.
  rewrite cubic_lower_0, (cdf_at_zero Phi HPhi) in H. lra.
Qed.

Lemma cdf_upper_pos (x : R) :
  0 <= x -> Phi x <= 1 / 2 + / sqrt (2 * PI) * quintic_upper x.
Proof.
  intros Hx. pose proof (quintic_minus_cdf_incr 0 x Hx) as H.
  rewrite quintic_upper_0, (cdf_at_zero Phi HPhi) in H. lra.
Qed.

Lemma cdf_upper_neg (x : R) :
  x <= 0 -> Phi x <= 1 / 2 + / sqrt (2 * PI) * cubic_lower x.
Proof.
  intros Hx. pose proof (cdf_minus_cubic_incr x 0 Hx) as H.
  rewrite cubic_lower_0, (cdf_at_zero Phi HPhi) in H. lra.
Qed.

Lemma cdf_lower_neg (x : R) :
  x <= 0 -> 1 / 2 + / sqrt (2 * PI) * quintic_upper x <= Phi x.
Proof.
  intros Hx. pose proof (quintic_minus_cdf_incr x 0 Hx) as H.
  rewrite quintic_upper_0, (cdf_at_zero Phi HPhi) in H. lra.
Qed.

(** The four values of the CDF met in the reference scenario. *)
Lemma cdf_at_0175 : 0.569458 < Phi 0.175 < 0.569461.
Proof.
  pose proof inv_sqrt_2PI_bounds as [Hlo Hhi].
  pose proof (cdf_lower_pos 0.175 ltac:(lra)) as H1.
  pose proof (cdf_upper_pos 0.175 ltac:(lra)) as H2.
  unfold cubic_lower, quintic_upper in *. simpl pow in *. split; nra.
Qed.

Lemma cdf_at_m0025 : 0.490027 < Phi (-0.025) < 0.490028.
Proof.
  pose proof inv_sqrt_2PI_bounds as [Hlo Hhi].
  pose proof (cdf_lower_neg (-0.025) ltac:(lra)) as H1.
  pose proof (cdf_upper_neg (-0.025) ltac:(lra)) as H2.
  unfold cubic_lower, quintic_upper in *. simpl pow in *. split; nra.
Qed.

Lemma cdf_at_0025 : 0.509972 < Phi 0.025 < 0.509973.
Proof.
  pose proof inv_sqrt_2PI_bounds as [Hlo Hhi].
  pose proof (cdf_lower_pos 0.025 ltac:(lra)) as H1.
  pose proof (cdf_upper_pos 0.025 ltac:(lra)) as H2.
  unfold cubic_lower, quintic_upper in *. simpl pow in *. split; nra.
Qed.

Lemma cdf_at_m0175 : 0.430539 < Phi (-0.175) < 0.430542.
Proof.
  pose proof inv_sqrt_2PI_bounds as [Hlo Hhi].
  pose proof (cdf_lower_neg (-0.175) ltac:(lra)) as H1.
  pose proof (cdf_upper_neg (-0.175) ltac:(lra)) as H2.
  unfold cubic_lower, quintic_upper in *. simpl pow in *. split; nra.
Qed.

Lemma discount_bounds : 0.985 <= exp (- (0.015 * 1)) <= 0.98512.
Proof.
  pose proof (exp_neg_lower (0.015 * 1)).
  pose proof (exp_neg_upper (0.015 * 1) ltac:(lra)) as H2.
  simpl pow in H2. split; lra.
Qed.

Lemma spec_d1_reference : spec_d1 100 100 1 0.015 0.2 = 0.175.
Proof.
  unfold spec_d1. replace (100 / 100) with 1 by lra.
  rewrite ln_1, sqrt_1. lra.
Qed.

Lemma spec_d2_reference : spec_d2 100 100 1 0.015 0.2 = -0.025.
Proof. unfold spec_d2. rewrite spec_d1_reference, sqrt_1. lra. Qed.

Lemma spec_call_reference : 8.67 < spec_call Phi 100 100 1 0.015 0.2 < 8.68.
Proof.
  unfold spec_call. rewrite spec_d2_reference, spec_d1_reference.
  pose proof cdf_at_0175. pose proof cdf_at_m0025. pose proof discount_bounds.
  split; nra.
Qed.

Lemma spec_put_reference : 7.17 < spec_put Phi 100 100 1 0.015 0.2 < 7.19.
Proof.
  unfold spec_put. rewrite spec_d2_reference, spec_d1_reference.
  replace (- -0.025) with 0.025 by lra.
  replace (- (0.175)) with (-0.175) by lra.
  pose proof cdf_at_0025. pose proof cdf_at_m0175. pose proof discount_bounds.
  split; nra.
Qed.

End CdfBounds.

(** ** Sensitivities of the closed form *)






Section Monotone.

Variable Phi : R -> R.
Hypothesis HPhi : is_std_normal_cdf Phi.











End Monotone.
(** * Properties of the program *)

Lemma holds_cases (v : pyval) (x : R) :
  holds v x -> v = PyFloat (Fin x) \/ v = NpFloat (Fin x).
Proof.
  unfold holds; destruct v as [|a|a]; simpl; intros H; try discriminate;
    injection H as ->; auto.
Qed.

Lemma np_fin_eq (x y : R) : x = y -> Ok (NpFloat (Fin x)) = Ok (NpFloat (Fin y)).
Proof. intros ->; reflexivity. Qed.

Lemma half_decimal : 0.5 = / 2.
Proof. lra. Qed.

Lemma sqrt_pos_neq (t : R) : 0 < t -> sqrt t <> 0.
Proof. intros Ht Hs. apply sqrt_lt_R0 in Ht. lra. Qed.

Ltac decide_reals :=
  repeat match goal with
  | |- context [Rlt_dec ?a ?b] => destruct (Rlt_dec a b); try lra
  | |- context [Req_dec_T ?a ?b] => destruct (Req_dec_T a b); try lra
  | |- context [Rle_dec ?a ?b] => destruct (Rle_dec a b); try lra
  end.

Section PricingFacts.

Variable Phi : R -> R.

(** On the valid domain [d1] is a NumPy scalar holding the specified value,
    whatever mix of Python and NumPy floats comes in. *)
Lemma bs_d1_valid (S K T r sigma : pyval) (s k t rr sg : R) :
  holds S s -> holds K k -> holds T t -> holds r rr -> holds sigma sg ->
  0 < s -> 0 < k -> 0 < t -> 0 < sg ->
  bs_d1 S K T r sigma = Ok (NpFloat (Fin (spec_d1 s k t rr sg))).
Proof.
  intros HS HK HT Hr Hsg Hs Hk Ht Hg.
  assert (Hq : 0 < s / k) by (apply Rdiv_lt_0_compat; assumption).
  assert (Hsq : sqrt t <> 0) by (apply sqrt_pos_neq; assumption).
  assert (Hden : sg * sqrt t <> 0) by (apply Rmult_integral_contrapositive; split; lra).
  assert (Hk0 : k <> 0) by lra.
  destruct (holds_cases _ _ HS) as [-> | ->];
  destruct (holds_cases _ _ HK) as [-> | ->];
  destruct (holds_cases _ _ HT) as [-> | ->];
  destruct (holds_cases _ _ Hr) as [-> | ->];
  destruct (holds_cases _ _ Hsg) as [-> | ->];
  unfold bs_d1, py_div, py_arith, fis_zero; simpl;
  decide_reals; simpl; decide_reals; simpl; decide_reals;
  unfold spec_d1; apply np_fin_eq; rewrite half_decimal; field;
    repeat split; (assumption || lra).
Qed.

Lemma bs_d2_valid (T sigma : pyval) (d t sg : R) :
  holds T t -> holds sigma sg -> 0 < t ->
  bs_d2 (NpFloat (Fin d)) T sigma = Ok (NpFloat (Fin (d - sg * sqrt t))).
Proof.
  intros HT Hsg Ht.
  destruct (holds_cases _ _ HT) as [-> | ->];
  destruct (holds_cases _ _ Hsg) as [-> | ->];
  unfold bs_d2; simpl; decide_reals; reflexivity.
Qed.

Lemma bs_call_valid (S K T r : pyval) (s k t rr d1 d2 : R) :
  holds S s -> holds K k -> holds T t -> holds r rr ->
  bs_call Phi S K T r (NpFloat (Fin d1)) (NpFloat (Fin d2))
  = Ok (NpFloat (Fin (s * Phi d1 - k * exp (- (rr * t)) * Phi d2))).
Proof.
  intros HS HK HT Hr.
  destruct (holds_cases _ _ HS) as [-> | ->];
  destruct (holds_cases _ _ HK) as [-> | ->];
  destruct (holds_cases _ _ HT) as [-> | ->];
  destruct (holds_cases _ _ Hr) as [-> | ->];
  unfold bs_call; simpl; apply np_fin_eq;
  replace (- rr * t) with (- (rr * t)) by ring; ring.
Qed.

Lemma bs_put_valid (S K T r : pyval) (s k t rr d1 d2 : R) :
  holds S s -> holds K k -> holds T t -> holds r rr ->
  bs_put Phi S K T r (NpFloat (Fin d1)) (NpFloat (Fin d2))
  = Ok (NpFloat (Fin (k * exp (- (rr * t)) * Phi (- d2) - s * Phi (- d1)))).
Proof.
  intros HS HK HT Hr.
  destruct (holds_cases _ _ HS) as [-> | ->];
  destruct (holds_cases _ _ HK) as [-> | ->];
  destruct (holds_cases _ _ HT) as [-> | ->];
  destruct (holds_cases _ _ Hr) as [-> | ->];
  unfold bs_put; simpl; apply np_fin_eq;
  replace (- rr * t) with (- (rr * t)) by ring; ring.
Qed.

Lemma bs_body_valid (S K T r sigma : pyval) (s k t rr sg : R) (option_type : string) :
  holds S s -> holds K k -> holds T t -> holds r rr -> holds sigma sg ->
  0 < s -> 0 < k -> 0 < t -> 0 < sg ->
  bs_body Phi S K T r sigma option_type
  = Ok (NpFloat (Fin (spec_price Phi s k t rr sg option_type))).
Proof.
  intros HS HK HT Hr Hsg Hs Hk Ht Hg.
  unfold bs_body.
  rewrite (bs_d1_valid S K T r sigma s k t rr sg) by assumption.
  cbn [rbind].
  rewrite (bs_d2_valid T sigma _ t sg) by assumption.
  cbn [rbind]. unfold spec_price.
  destruct (String.eqb option_type "call").
  - rewrite (bs_call_valid S K T r s k t rr) by assumption. reflexivity.
  - rewrite (bs_put_valid S K T r s k t rr) by assumption. reflexivity.
Qed.

(** What [black_scholes] does in a world, by cases on its [try] body. *)
Lemma black_scholes_ok (S K T r sigma : pyval) (option_type : string)
    (p : pyval) (w : world) :
  bs_body Phi S K T r sigma option_type = Ok p ->
  black_scholes Phi S K T r sigma option_type w = (Ok p, w).
Proof.
  intros H. unfold black_scholes, try_except, lift. rewrite H. reflexivity.
Qed.

Lemma black_scholes_caught (S K T r sigma : pyval) (option_type : string)
    (e : exn) (w : world) :
  bs_body Phi S K T r sigma option_type = Raise e ->
  black_scholes Phi S K T r sigma option_type w
  = (Ok np_nan, mkWorld (clock w) (ui w ++ [StError bs_error_msg (Some e)])).
Proof.
  intros H. unfold black_scholes, try_except, lift. rewrite H. reflexivity.
Qed.

(** On the valid domain the call returns the closed form in any world. *)
Lemma prices_closed_form (S K T r sigma : pyval) (s k t rr sg : R)
    (option_type : string) :
  holds S s -> holds K k -> holds T t -> holds r rr -> holds sigma sg ->
  0 < s -> 0 < k -> 0 < sg -> 0 < t ->
  prices Phi S K T r sigma option_type (spec_price Phi s k t rr sg option_type).
Proof.
  intros HS HK HT Hr Hsg Hs Hk Hg Ht w.
  apply black_scholes_ok.
  apply (bs_body_valid S K T r sigma s k t rr sg); assumption.
Qed.


End PricingFacts.

(** ** Exceptions never leave [black_scholes] *)

Lemma py_arith_is_float (op : flt -> flt -> flt) (a b p : pyval) :
  py_arith op a b = Ok p -> is_float p.
Proof.
  destruct a, b; simpl; intros H; try discriminate;
    injection H as <-; eexists; reflexivity.
Qed.

Lemma rbind_ok {A B : Type} (m : result A) (k : A -> result B) (b : B) :
  rbind m k = Ok b -> exists a, m = Ok a /\ k a = Ok b.
Proof. destruct m; simpl; intros H; [eauto | discriminate]. Qed.

Ltac rbind_inv H :=
  repeat (apply rbind_ok in H; destruct H as (? & _ & H)).

Section NoEscape.

Variable Phi : R -> R.

Lemma bs_body_is_float (S K T r sigma : pyval) (option_type : string) (p : pyval) :
  bs_body Phi S K T r sigma option_type = Ok p -> is_float p.
Proof.
  unfold bs_body. intros H.
  apply rbind_ok in H; destruct H as (d1 & _ & H).
  apply rbind_ok in H; destruct H as (d2 & _ & H).
  destruct (String.eqb option_type "call").
  - unfold bs_call in H. rbind_inv H.
    apply py_arith_is_float in H. exact H.
  - unfold bs_put in H. rbind_inv H.
    apply py_arith_is_float in H. exact H.
Qed.

(** C10.  [black_scholes] never propagates an exception: for every input
    (None and the special float values included) it either returns the
    float its formula computed, leaving the page alone, or catches the
    exception its formula raised, shows an error banner and returns NaN. *)
Theorem black_scholes_never_raises
    (S K T r sigma : pyval) (option_type : string) (w : world) :
  (exists p, bs_body Phi S K T r sigma option_type = Ok p
             /\ is_float p
             /\ black_scholes Phi S K T r sigma option_type w = (Ok p, w))
  \/ (exists e, bs_body Phi S K T r sigma option_type = Raise e
                /\ black_scholes Phi S K T r sigma option_type w
                   = (Ok (PyFloat NaN),
                      mkWorld (clock w) (ui w ++ [StError bs_error_msg (Some e)]))).
Proof.
  destruct (bs_body Phi S K T r sigma option_type) as [p | e] eqn:Hb.
  - left. exists p. split; [reflexivity |]. split.
    + exact (bs_body_is_float _ _ _ _ _ _ _ Hb).
    + apply black_scholes_ok; exact Hb.
  - right. exists e. split; [reflexivity |].
    apply black_scholes_caught; exact Hb.
Qed.

(** The two ways the formula raises: a Python-float strike equal to zero,
    and a missing spot price. *)
Example bs_body_zero_strike :
  bs_body Phi (PyFloat (Fin 100)) (PyFloat (Fin 0)) (PyFloat (Fin 1))
    (PyFloat (Fin 0.015)) (PyFloat (Fin 0.2)) "call" = Raise ZeroDivisionError.
Proof.
  unfold bs_body, bs_d1, py_div, fis_zero.
  destruct (Req_dec_T 0 0) as [_ | n]; [reflexivity | contradiction n; reflexivity].
Qed.


End NoEscape.


(** ** Invalid contract parameters *)

Lemma fdiv_nan_r (a : flt) : fdiv a NaN = NaN.
Proof. destruct a; reflexivity. Qed.

Section InvalidDomain.

Variable Phi : R -> R.

(** A negative time to expiration: the square root is NaN and so is the
    price, unless the division [S / K] raised first. *)
Lemma bs_body_negative_T (S K T r sigma : pyval) (s k t rr sg : R) (option_type : string) :
  holds S s -> holds K k -> holds T t -> holds r rr -> holds sigma sg ->
  t < 0 ->
  bs_body Phi S K T r sigma option_type = Ok (NpFloat NaN)
  \/ bs_body Phi S K T r sigma option_type = Raise ZeroDivisionError.
Proof.
  intros HS HK HT Hr Hsg Ht.
  destruct (holds_cases _ _ HS) as [-> | ->];
  destruct (holds_cases _ _ HK) as [-> | ->];
  destruct (holds_cases _ _ HT) as [-> | ->];
  destruct (holds_cases _ _ Hr) as [-> | ->];
  destruct (holds_cases _ _ Hsg) as [-> | ->];
  unfold bs_body, bs_d1, py_div, py_arith, fis_zero; simpl;
  decide_reals; simpl; decide_reals; simpl;
  rewrite ?fdiv_nan_r; simpl; auto;
  destruct (String.eqb option_type "call"); simpl; auto.
Qed.

(** At the money with no time left: [d1] is zero over zero. *)
Lemma bs_body_atm_zero_T (S K T r sigma : pyval) (k rr sg : R) (option_type : string) :
  holds S k -> holds K k -> holds T 0 -> holds r rr -> holds sigma sg ->
  0 < k ->
  bs_body Phi S K T r sigma option_type = Ok (NpFloat NaN).
Proof.
  intros HS HK HT Hr Hsg Hk.
  assert (Hkk : k / k = 1) by (field; lra).
  destruct (holds_cases _ _ HS) as [-> | ->];
  destruct (holds_cases _ _ HK) as [-> | ->];
  destruct (holds_cases _ _ HT) as [-> | ->];
  destruct (holds_cases _ _ Hr) as [-> | ->];
  destruct (holds_cases _ _ Hsg) as [-> | ->];
  unfold bs_body, bs_d1, py_div, py_arith, fis_zero; simpl;
  rewrite ?Hkk, ?sqrt_0, ?Rmult_0_r;
  decide_reals; simpl; rewrite ?ln_1, ?Rmult_0_r, ?Rplus_0_r;
  decide_reals; simpl;
  unfold signed_inf; decide_reals; simpl;
  destruct (String.eqb option_type "call"); reflexivity.
Qed.

(** C2 (amended).  No [InvalidContractParameters] exists and nothing is
    raised on invalid parameters: for finite floats with S <= 0, K <= 0,
    sigma <= 0 or T <= 0, [black_scholes] returns a float to its caller.
    That float is NaN when T < 0, and when T = 0 with S = K > 0; in
    particular for S = 100, K = 100, T = 0 it is NaN. *)
Theorem black_scholes_invalid_domain
    (S K T r sigma : pyval) (s k t rr sg : R) (option_type : string) (w : world) :
  holds S s -> holds K k -> holds T t -> holds r rr -> holds sigma sg ->
  s <= 0 \/ k <= 0 \/ sg <= 0 \/ t <= 0 ->
  exists (v : pyval) (w' : world),
    black_scholes Phi S K T r sigma option_type w = (Ok v, w')
    /\ is_float v
    /\ (t < 0 -> as_flt v = Some NaN)
    /\ (t = 0 -> s = k -> 0 < k -> as_flt v = Some NaN).
Proof.
  intros HS HK HT Hr Hsg _.
  destruct (bs_body Phi S K T r sigma option_type) as [p | e] eqn:Hb.
  - exists p, w. split; [apply black_scholes_ok; exact Hb |].
    split; [exact (bs_body_is_float _ _ _ _ _ _ _ _ Hb) |]. split.
    + intros Ht.
      destruct (bs_body_negative_T S K T r sigma s k t rr sg option_type
                  HS HK HT Hr Hsg Ht) as [E | E];
        rewrite E in Hb; [injection Hb as <-; reflexivity | discriminate].
    + intros -> -> Hk.
      rewrite (bs_body_atm_zero_T S K T r sigma k rr sg option_type
                 HS HK HT Hr Hsg Hk) in Hb.
      injection Hb as <-. reflexivity.
  - eexists _, _. split; [apply black_scholes_caught; exact Hb |].
    split; [exists NaN; reflexivity |]. split; intros; reflexivity.
Qed.



End InvalidDomain.

Lemma black_scholes_invalid_domain_witness :
  exists (v : pyval) (w' : world),
    black_scholes std_normal_cdf (PyFloat (Fin 100)) (PyFloat (Fin 100)) (PyFloat (Fin 0))
      (PyFloat (Fin 0.015)) (PyFloat (Fin 0.2)) "call" blank = (Ok v, w')
    /\ is_float v
    /\ (0 < 0 -> as_flt v = Some NaN)
    /\ (0 = 0 -> 100 = 100 -> 0 < 100 -> as_flt v = Some NaN).
Proof.
  apply (black_scholes_invalid_domain std_normal_cdf _ _ _ _ _ 100 100 0 0.015 0.2);
    try reflexivity.
  right; right; right. lra.
Defined.

(** The specification's domain-error scenario: the code returns NaN and
    raises nothing. *)
Lemma black_scholes_zero_T_returns_nan :
  black_scholes std_normal_cdf (PyFloat (Fin 100)) (PyFloat (Fin 100)) (PyFloat (Fin 0))
    (PyFloat (Fin 0.015)) (PyFloat (Fin 0.2)) "call" blank
  = (Ok (NpFloat NaN), blank)
  /\ ~ (exists e w',
          black_scholes std_normal_cdf (PyFloat (Fin 100)) (PyFloat (Fin 100))
            (PyFloat (Fin 0)) (PyFloat (Fin 0.015)) (PyFloat (Fin 0.2)) "call" blank
          = (Raise e, w')).
Proof.
  rewrite (black_scholes_ok std_normal_cdf _ _ _ _ _ _ (NpFloat NaN) blank).
  - split; [reflexivity |]. intros (e & w' & H). discriminate.
  - apply (bs_body_atm_zero_T std_normal_cdf _ _ _ _ _ 100 0.015 0.2);
      try reflexivity; lra.
Qed.


(** ** The clamp on the time to expiration *)



Lemma clamp_T_nonpositive (t : R) (w : world) :
  t <= 0 ->
  clamp_T (PyFloat (Fin t)) w
  = (Ok (PyFloat (Fin 0.01)), mkWorld (clock w) (ui w ++ [StError future_msg None])).
Proof.
  intros Ht. unfold clamp_T, bind, lift, py_le, fle.
  destruct (Rle_dec t 0) as [_ | n]; [reflexivity | contradiction].
Qed.

Lemma clamp_T_positive (t : R) (w : world) :
  0 < t -> clamp_T (PyFloat (Fin t)) w = (Ok (PyFloat (Fin t)), w).
Proof.
  intros Ht. unfold clamp_T, bind, lift, py_le, fle.
  destruct (Rle_dec t 0) as [n | _]; [lra | reflexivity].
Qed.

Section Clamp.

Variable Phi : R -> R.


End Clamp.


(** ** The sample grid *)

Lemma nth_map_seq (f : nat -> R) (m i : nat) (d : R) :
  (i < m)%nat -> nth i (map f (seq 0 m)) d = f i.
Proof.
  intros Hi.
  rewrite (nth_indep _ d (f 0%nat)) by (rewrite length_map, length_seq; exact Hi).
  rewrite map_nth, seq_nth by exact Hi. reflexivity.
Qed.

Lemma linspace_finite (a b : R) (n : nat) :
  (2 <= n)%nat -> linspace (Fin a) (Fin b) n = map Fin (rgrid a b n).
Proof.
  intros Hn. unfold linspace, rgrid.
  destruct n as [| m]; [lia |]. destruct m as [| m]; [lia |].
  replace (S (S m) - 1)%nat with (S m) by lia.
  assert (Hm : INR (S m) <> 0) by (apply not_0_INR; lia).
  replace (0 <? S m)%nat with true by (symmetry; apply Nat.ltb_lt; lia).
  replace (1 <? S (S m))%nat with true by (symmetry; apply Nat.ltb_lt; lia).
  rewrite (seq_S (S m) 0), map_app. cbn [map]. rewrite removelast_last.
  rewrite map_app, map_map. cbn [map]. f_equal.
  apply map_ext. intros i.
  unfold fsub, fneg, fadd, fdiv.
  destruct (Req_dec_T (INR (S m)) 0) as [E | _]; [contradiction |].
  cbn [fmul fadd]. f_equal. unfold Rminus. ring.
Qed.


Lemma rgrid_length (a b : R) (n : nat) : (1 <= n)%nat -> List.length (rgrid a b n) = n.
Proof.
  intros Hn. unfold rgrid. rewrite length_app, length_map, length_seq. simpl. lia.
Qed.

Lemma rgrid_nth (a b : R) (n i : nat) :
  (2 <= n)%nat -> (i < n)%nat ->
  nth i (rgrid a b n) 0 = a + INR i * ((b - a) / INR (n - 1)).
Proof.
  intros Hn Hi. unfold rgrid.
  assert (Hm : INR (n - 1) <> 0) by (apply not_0_INR; lia).
  destruct (Nat.eq_dec i (n - 1)) as [-> | Hne].
  - rewrite app_nth2; rewrite length_map, length_seq; [| lia].
    rewrite Nat.sub_diag. simpl. field. exact Hm.
  - rewrite app_nth1 by (rewrite length_map, length_seq; lia).
    rewrite nth_map_seq by lia. reflexivity.
Qed.

Lemma rgrid_spec (low high : R) (n : nat) :
  low < high -> (2 <= n)%nat -> grid_spec low high n (rgrid low high n).
Proof.
  intros Hlh Hn.
  assert (Hm : 0 < INR (n - 1)) by (apply lt_0_INR; lia).
  assert (Hstep : 0 < (high - low) / INR (n - 1)) by (apply Rdiv_lt_0_compat; lra).
  unfold grid_spec. split; [apply rgrid_length; lia |].
  split; [rewrite rgrid_nth by lia; simpl; lra |].
  split; [rewrite rgrid_nth by lia; field; lra |].
  split; intros i Hi; rewrite !rgrid_nth by lia; rewrite S_INR; lra.
Qed.

(** On finite inputs the payoff code yields the grid over
    [[0.5 * price, 1.5 * price]] and the specified profit at each point. *)
Lemma payoff_curve_finite (current_price strike bs_price : pyval) (c k p : R)
    (option_type : string) :
  holds current_price c -> holds strike k -> holds bs_price p ->
  payoff_curve current_price strike bs_price option_type
  = Ok (map Fin (rgrid (c * 0.5) (c * 1.5) 100),
        map (fun s' => Fin (spec_profit option_type k p s'))
          (rgrid (c * 0.5) (c * 1.5) 100)).
Proof.
  intros Hc Hk Hp.
  destruct (holds_cases _ _ Hc) as [-> | ->];
  destruct (holds_cases _ _ Hk) as [-> | ->];
  destruct (holds_cases _ _ Hp) as [-> | ->];
  unfold payoff_curve, py_mul, py_arith, np_linspace;
  cbn [rbind fmul as_flt];
  rewrite linspace_finite by lia;
  unfold spec_profit, arr_sub_scalar, scalar_sub_arr, np_maximum0;
  destruct (String.eqb option_type "call");
  cbn [rbind as_flt]; rewrite !map_map; reflexivity.
Qed.




(** ** The payoff *)

(** C5.  At every sampled price S' the payoff code computes the profit
    max(S' - K, 0) - p for a call and max(K - S', 0) - p otherwise; the
    last of the 100 samples is 1.5 times the spot price. *)
Theorem payoff_profit (current_price strike bs_price : pyval) (c k p : R)
    (option_type : string) :
  holds current_price c -> holds strike k -> holds bs_price p ->
  exists xs : list R,
    payoff_curve current_price strike bs_price option_type
    = Ok (map Fin xs, map (fun s' => Fin (spec_profit option_type k p s')) xs)
    /\ List.length xs = 100%nat
    /\ nth 99 xs 0 = c * 1.5.
Proof.
  intros Hc Hk Hp. exists (rgrid (c * 0.5) (c * 1.5) 100).
  split; [apply payoff_curve_finite; assumption |].
  split; [apply rgrid_length; lia |].
  rewrite rgrid_nth by lia. simpl. field.
Qed.

Lemma payoff_profit_witness :
  exists xs : list R,
    payoff_curve (NpFloat (Fin 100)) (NpFloat (Fin 100)) (NpFloat (Fin 8.75)) "call"
    = Ok (map Fin xs, map (fun s' => Fin (spec_profit "call" 100 8.75 s')) xs)
    /\ List.length xs = 100%nat
    /\ nth 99 xs 0 = 100 * 1.5.
Proof.
  apply (payoff_profit (NpFloat (Fin 100)) (NpFloat (Fin 100)) (NpFloat (Fin 8.75))
           100 100 8.75 "call"); reflexivity.
Defined.

(** The specification's scenario: strike 100, premium 8.75, price at
    expiration 150. *)
Example call_profit_at_150 : spec_profit "call" 100 8.75 150 = 41.25.
Proof.
  unfold spec_profit. simpl. rewrite Rmax_left by lra. lra.
Qed.

(** The same scenario through the code: with a spot of 100 the last grid
    point is 150 and the last entry of the payoff array is 41.25. *)
Example payoff_curve_last_point :
  exists S payoff : ndarray,
    payoff_curve (NpFloat (Fin 100)) (NpFloat (Fin 100)) (NpFloat (Fin 8.75)) "call"
    = Ok (S, payoff)
    /\ nth 99 S NaN = Fin 150
    /\ nth 99 payoff NaN = Fin 41.25.
Proof.
  eexists _, _.
  split; [apply (payoff_curve_finite _ _ _ 100 100 8.75); reflexivity |].
  assert (E : nth 99 (rgrid (100 * 0.5) (100 * 1.5) 100) 0 = 150).
  { rewrite rgrid_nth by lia.
    replace (INR (100 - 1)) with 99 by (simpl; lra).
    replace (INR 99) with 99 by (simpl; lra). lra. }
  split.
  - rewrite (nth_indep _ NaN (Fin 0))
      by (rewrite length_map, rgrid_length; lia).
    rewrite map_nth, E. reflexivity.
  - rewrite (nth_indep _ NaN (Fin (spec_profit "call" 100 8.75 0)))
      by (rewrite length_map, rgrid_length; lia).
    rewrite (map_nth (fun s' => Fin (spec_profit "call" 100 8.75 s'))), E.
    rewrite call_profit_at_150. reflexivity.
Qed.

(** ** Relations between prices *)





(** ** The reference scenario *)

(** C8 (amended).  For S = 100, K = 100, T = 1, r = 0.015, sigma = 0.20
    [black_scholes] returns a call price of about 8.67 (between 8.67 and
    8.68) and a put price of about 7.18 (between 7.17 and 7.19). *)
Theorem reference_prices (Phi : R -> R) (S K T r sigma : pyval) :
  is_std_normal_cdf Phi ->
  holds S 100 -> holds K 100 -> holds T 1 -> holds r 0.015 -> holds sigma 0.2 ->
  exists c p : R,
    prices Phi S K T r sigma "call" c
    /\ prices Phi S K T r sigma "put" p
    /\ 8.67 < c < 8.68
    /\ 7.17 < p < 7.19.
Proof.
  intros HPhi HS HK HT Hr Hsg.
  exists (spec_price Phi 100 100 1 0.015 0.2 "call"),
         (spec_price Phi 100 100 1 0.015 0.2 "put").
  split; [apply prices_closed_form; (assumption || lra) |].
  split; [apply prices_closed_form; (assumption || lra) |].
  split.
  - exact (spec_call_reference Phi HPhi).
  - exact (spec_put_reference Phi HPhi).
Qed.

Lemma reference_prices_witness :
  exists c p : R,
    prices std_normal_cdf (NpFloat (Fin 100)) (NpFloat (Fin 100)) (PyFloat (Fin 1))
      (PyFloat (Fin 0.015)) (PyFloat (Fin 0.2)) "call" c
    /\ prices std_normal_cdf (NpFloat (Fin 100)) (NpFloat (Fin 100)) (PyFloat (Fin 1))
         (PyFloat (Fin 0.015)) (PyFloat (Fin 0.2)) "put" p
    /\ 8.67 < c < 8.68
    /\ 7.17 < p < 7.19.
Proof.
  apply (reference_prices std_normal_cdf); try reflexivity.
  exact std_normal_cdf_is_cdf.
Defined.

(** The reference call price is more than 0.05 away from 8.75. *)
Lemma reference_call_not_8_75 :
  exists c : R,
    black_scholes std_normal_cdf (PyFloat (Fin 100)) (PyFloat (Fin 100)) (PyFloat (Fin 1))
      (PyFloat (Fin 0.015)) (PyFloat (Fin 0.2)) "call" blank
    = (Ok (NpFloat (Fin c)), blank)
    /\ ~ Rabs (c - 8.75) <= 0.05.
Proof.
  exists (spec_price std_normal_cdf 100 100 1 0.015 0.2 "call").
  split.
  - apply prices_closed_form; try reflexivity; lra.
  - change (~ Rabs (spec_call std_normal_cdf 100 100 1 0.015 0.2 - 8.75) <= 0.05).
    pose proof (spec_call_reference std_normal_cdf std_normal_cdf_is_cdf) as [_ Hhi].
    intros H. apply Rabs_le_bounds in H. lra.
Qed.

(** * Further properties of the code *)

(** ** The Gaussian tail *)









Section Tail.

Variable Phi : R -> R.
Hypothesis HPhi : is_std_normal_cdf Phi.



End Tail.


(** ** Degenerate contracts *)

Section EdgePrices.

Variable Phi : R -> R.



(** The same zero strike between two Python floats raises. *)
Lemma bs_body_zero_strike_python (x : flt) (T r sigma : pyval) (option_type : string) :
  bs_body Phi (PyFloat x) (PyFloat (Fin 0)) T r sigma option_type
  = Raise ZeroDivisionError.
Proof.
  unfold bs_body, bs_d1, py_div, fis_zero.
  destruct (Req_dec_T 0 0) as [_ | n]; [reflexivity | contradiction n; reflexivity].
Qed.










End EdgePrices.

(** ** Missing and NaN arguments *)

Lemma fadd_nan_r (a : flt) : fadd a NaN = NaN.
Proof. destruct a; reflexivity. Qed.
Lemma fmul_nan_r (a : flt) : fmul a NaN = NaN.
Proof. destruct a; reflexivity. Qed.
Lemma fsub_nan_r (a : flt) : fsub a NaN = NaN.
Proof. destruct a; reflexivity. Qed.

Section Poison.

Variable Phi : R -> R.

(** A missing argument makes the formula raise. *)
Lemma bs_body_none (S K T r sigma : pyval) (option_type : string) :
  S = PyNone \/ K = PyNone \/ T = PyNone \/ r = PyNone \/ sigma = PyNone ->
  exists e, bs_body Phi S K T r sigma option_type = Raise e.
Proof.
  intros H.
  destruct S as [| a | a], K as [| b | b], T as [| c | c], r as [| d | d],
    sigma as [| g | g];
    (decompose [or] H; try discriminate);
    unfold bs_body, bs_d1, py_div; simpl;
    try (destruct (fis_zero b)); simpl; eauto.
Qed.

(** A NaN argument makes the price NaN. *)
Lemma bs_body_nan (S K T r sigma : pyval) (option_type : string) :
  is_float S -> is_float K -> is_float T -> is_float r -> is_float sigma ->
  as_flt S = Some NaN \/ as_flt K = Some NaN \/ as_flt T = Some NaN
  \/ as_flt r = Some NaN \/ as_flt sigma = Some NaN ->
  bs_body Phi S K T r sigma option_type = Ok (NpFloat NaN)
  \/ bs_body Phi S K T r sigma option_type = Raise ZeroDivisionError.
Proof.
  intros [a HS] [b HK] [c HT] [d Hr] [g Hsg] H.
  destruct S as [| a' | a'], K as [| b' | b'], T as [| c' | c'], r as [| d' | d'],
    sigma as [| g' | g']; try discriminate;
    simpl in H;
    (destruct H as [H | [H | [H | [H | H]]]]; injection H as ->);
    unfold bs_body, bs_d1, bs_d2, bs_call, bs_put, py_div; simpl;
    try (destruct (fis_zero _)); simpl;
    rewrite ?fadd_nan_r, ?fmul_nan_r, ?fdiv_nan_r, ?fsub_nan_r; simpl;
    rewrite ?fadd_nan_r, ?fmul_nan_r, ?fdiv_nan_r, ?fsub_nan_r; simpl;
    auto;
    destruct (String.eqb option_type "call"); simpl;
    rewrite ?fadd_nan_r, ?fmul_nan_r, ?fdiv_nan_r, ?fsub_nan_r; simpl; auto.
Qed.

End Poison.

Section EdgeTheorems.

Variable Phi : R -> R.



(** X4.  The same zero strike between two Python floats makes [S / K]
    raise ZeroDivisionError, which is caught: one error banner, NaN
    returned, whatever the other arguments. *)
Theorem zero_strike_as_python (x : flt) (T r sigma : pyval) (option_type : string)
    (w : world) :
  black_scholes Phi (PyFloat x) (PyFloat (Fin 0)) T r sigma option_type w
  = (Ok (PyFloat NaN),
     mkWorld (clock w) (ui w ++ [StError bs_error_msg (Some ZeroDivisionError)])).
Proof. apply black_scholes_caught. apply bs_body_zero_strike_python. Qed.




(** X8.  If any of S, K, T, r, sigma is None the call returns NaN after
    exactly one error banner. *)
Theorem missing_argument_gives_nan (S K T r sigma : pyval) (option_type : string)
    (w : world) :
  S = PyNone \/ K = PyNone \/ T = PyNone \/ r = PyNone \/ sigma = PyNone ->
  exists e,
    black_scholes Phi S K T r sigma option_type w
    = (Ok (PyFloat NaN), mkWorld (clock w) (ui w ++ [StError bs_error_msg (Some e)])).
Proof.
  intros H. destruct (bs_body_none Phi S K T r sigma option_type H) as [e He].
  exists e. apply black_scholes_caught. exact He.
Qed.

(** X9.  If all five arguments are floats and one of them is NaN, the
    returned price is NaN. *)
Theorem nan_argument_gives_nan (S K T r sigma : pyval) (option_type : string)
    (w : world) :
  is_float S -> is_float K -> is_float T -> is_float r -> is_float sigma ->
  as_flt S = Some NaN \/ as_flt K = Some NaN \/ as_flt T = Some NaN
  \/ as_flt r = Some NaN \/ as_flt sigma = Some NaN ->
  exists v w',
    black_scholes Phi S K T r sigma option_type w = (Ok v, w')
    /\ as_flt v = Some NaN.
Proof.
  intros HS HK HT Hr Hsg H.
  destruct (bs_body_nan Phi S K T r sigma option_type HS HK HT Hr Hsg H) as [E | E].
  - exists (NpFloat NaN), w. split; [apply black_scholes_ok; exact E | reflexivity].
  - eexists _, _. split; [apply black_scholes_caught; exact E | reflexivity].
Qed.

End EdgeTheorems.






Lemma missing_argument_gives_nan_witness :
  exists e,
    black_scholes std_normal_cdf (NpFloat (Fin 100)) (NpFloat (Fin 100)) PyNone
      (PyFloat (Fin 0.015)) (PyFloat (Fin 0.2)) "call" blank
    = (Ok (PyFloat NaN),
       mkWorld (clock blank) (ui blank ++ [StError bs_error_msg (Some e)])).
Proof.
  apply missing_argument_gives_nan. right; right; left; reflexivity.
Defined.

Lemma nan_argument_gives_nan_witness :
  exists v w',
    black_scholes std_normal_cdf (NpFloat (Fin 100)) (NpFloat (Fin 100))
      (PyFloat (Fin 1)) (PyFloat (Fin 0.015)) (PyFloat NaN) "put" blank = (Ok v, w')
    /\ as_flt v = Some NaN.
Proof.
  apply nan_argument_gives_nan; try (eexists; reflexivity).
  right; right; right; right; reflexivity.
Defined.

(** ** Whole days *)

Lemma timedelta_days_nonpos (later earlier : Z) :
  (later - earlier < microseconds_per_day)%Z ->
  (timedelta_days later earlier <= 0)%Z.
Proof.
  intros H. unfold timedelta_days.
  assert (Hd : (0 < microseconds_per_day)%Z) by reflexivity.
  assert ((later - earlier) / microseconds_per_day < 1)%Z; [| lia].
  apply Z.div_lt_upper_bound; lia.
Qed.

Lemma timedelta_days_pos (later earlier : Z) :
  (microseconds_per_day <= later - earlier)%Z ->
  (1 <= timedelta_days later earlier)%Z.
Proof.
  intros H. unfold timedelta_days.
  assert (Hd : (0 < microseconds_per_day)%Z) by reflexivity.
  apply Z.div_le_lower_bound; lia.
Qed.

(** X10.  T is counted in whole days: an expiration less than 24 hours ahead (or
    past) is replaced by T = 0.01 under an error banner; from 24 hours on,
    T is the positive number of whole days over 365 and nothing is shown. *)
Theorem expiration_within_a_day_is_clamped (expiration_date : Z) (w : world) :
  ((expiration_date - clock w < microseconds_per_day)%Z
   /\ clamp_T (time_to_expiration expiration_date (clock w)) w
      = (Ok (PyFloat (Fin 0.01)),
         mkWorld (clock w) (ui w ++ [StError future_msg None])))
  \/ ((microseconds_per_day <= expiration_date - clock w)%Z
      /\ (1 <= timedelta_days expiration_date (clock w))%Z
      /\ clamp_T (time_to_expiration expiration_date (clock w)) w
         = (Ok (PyFloat (Fin (IZR (timedelta_days expiration_date (clock w)) / 365))), w)).
Proof.
  destruct (Z_lt_le_dec (expiration_date - clock w) microseconds_per_day) as [H | H].
  - left. split; [exact H |].
    apply clamp_T_nonpositive.
    apply timedelta_days_nonpos in H. apply IZR_le in H.
    apply Rmult_le_reg_r with 365; [lra |].
    unfold Rdiv. rewrite Rmult_assoc, Rinv_l by lra. lra.
  - right. split; [exact H |].
    pose proof (timedelta_days_pos _ _ H) as Hd. split; [exact Hd |].
    apply clamp_T_positive. apply IZR_le in Hd.
    apply Rdiv_lt_0_compat; lra.
Qed.


Section Flow.

Variable Phi : R -> R.



End Flow.


(** ** Shape of the payoff curve *)

Lemma nth_map_default {A B : Type} (f : A -> B) (l : list A) (i : nat) (d : A) (e : B) :
  (i < List.length l)%nat -> nth i (map f l) e = f (nth i l d).
Proof.
  intros Hi. rewrite (nth_indep _ e (f d)) by (rewrite length_map; exact Hi).
  apply map_nth.
Qed.

Lemma spec_profit_floor (option_type : string) (k p s' : R) :
  - p <= spec_profit option_type k p s'.
Proof.
  unfold spec_profit. destruct (String.eqb option_type "call").
  - pose proof (Rmax_r (s' - k) 0). lra.
  - pose proof (Rmax_r (k - s') 0). lra.
Qed.

Lemma spec_profit_out_of_money (option_type : string) (k p s' : R) :
  (if String.eqb option_type "call" then s' <= k else k <= s') ->
  spec_profit option_type k p s' = - p.
Proof.
  unfold spec_profit. destruct (String.eqb option_type "call"); intros H;
    rewrite Rmax_right by lra; ring.
Qed.

Lemma spec_profit_monotone (option_type : string) (k p x y : R) :
  x <= y ->
  if String.eqb option_type "call"
  then spec_profit option_type k p x <= spec_profit option_type k p y
  else spec_profit option_type k p y <= spec_profit option_type k p x.
Proof.
  intros Hxy. unfold spec_profit. destruct (String.eqb option_type "call").
  - assert (Rmax (x - k) 0 <= Rmax (y - k) 0); [| lra].
    apply Rmax_lub; [| apply Rmax_r].
    eapply Rle_trans; [| apply Rmax_l]. lra.
  - assert (Rmax (k - y) 0 <= Rmax (k - x) 0); [| lra].
    apply Rmax_lub; [| apply Rmax_r].
    eapply Rle_trans; [| apply Rmax_l]. lra.
Qed.

(** X13.  The loss of the plotted position never exceeds the premium, and it is
    exactly the premium wherever the option ends out of the money. *)
Theorem payoff_loss_is_at_most_premium
    (current_price strike bs_price : pyval) (c k p : R) (option_type : string) :
  holds current_price c -> holds strike k -> holds bs_price p ->
  exists xs ys : list R,
    payoff_curve current_price strike bs_price option_type
    = Ok (map Fin xs, map Fin ys)
    /\ List.length xs = 100%nat /\ List.length ys = 100%nat
    /\ (forall i, (i < 100)%nat -> - p <= nth i ys 0)
    /\ (forall i, (i < 100)%nat ->
          (if String.eqb option_type "call" then nth i xs 0 <= k else k <= nth i xs 0) ->
          nth i ys 0 = - p).
Proof.
  intros Hc Hk Hp.
  set (xs := rgrid (c * 0.5) (c * 1.5) 100).
  assert (Hlen : List.length xs = 100%nat) by (apply rgrid_length; lia).
  exists xs, (map (spec_profit option_type k p) xs).
  split.
  { rewrite map_map. apply payoff_curve_finite; assumption. }
  split; [exact Hlen |]. split; [rewrite length_map; exact Hlen |].
  split; intros i Hi.
  - rewrite (nth_map_default _ xs i 0) by lia. apply spec_profit_floor.
  - intros Hout. rewrite (nth_map_default _ xs i 0) by lia.
    apply spec_profit_out_of_money. exact Hout.
Qed.

(** X14.  Along the grid of a positive spot price the call payoff never
    decreases and the payoff of a put never increases. *)
Theorem payoff_monotone_along_grid
    (current_price strike bs_price : pyval) (c k p : R) (option_type : string) :
  holds current_price c -> holds strike k -> holds bs_price p -> 0 < c ->
  exists xs ys : list R,
    payoff_curve current_price strike bs_price option_type
    = Ok (map Fin xs, map Fin ys)
    /\ forall i, (S i < 100)%nat ->
         nth i xs 0 < nth (S i) xs 0
         /\ if String.eqb option_type "call"
            then nth i ys 0 <= nth (S i) ys 0
            else nth (S i) ys 0 <= nth i ys 0.
Proof.
  intros Hc Hk Hp Hc0.
  set (xs := rgrid (c * 0.5) (c * 1.5) 100).
  assert (Hlen : List.length xs = 100%nat) by (apply rgrid_length; lia).
  destruct (rgrid_spec (c * 0.5) (c * 1.5) 100 ltac:(lra) ltac:(lia))
    as (_ & _ & _ & Hasc & _).
  fold xs in Hasc.
  exists xs, (map (spec_profit option_type k p) xs).
  split.
  { rewrite map_map. apply payoff_curve_finite; assumption. }
  intros i Hi. specialize (Hasc i Hi). split; [exact Hasc |].
  rewrite !(nth_map_default _ xs _ 0) by lia.
  apply spec_profit_monotone. lra.
Qed.

(** X15.  A price that is NaN makes every entry of the payoff array NaN. *)
Theorem nan_price_blanks_payoff
    (current_price strike bs_price : pyval) (c k : R) (option_type : string) :
  holds current_price c -> holds strike k -> as_flt bs_price = Some NaN ->
  exists S payoff : ndarray,
    payoff_curve current_price strike bs_price option_type = Ok (S, payoff)
    /\ List.length payoff = 100%nat
    /\ Forall (fun y => y = NaN) payoff.
Proof.
  intros Hc Hk Hp.
  assert (Hb : bs_price = PyFloat NaN \/ bs_price = NpFloat NaN).
  { destruct bs_price; simpl in Hp; try discriminate; injection Hp as ->; auto. }
  destruct (holds_cases _ _ Hc) as [-> | ->];
  destruct (holds_cases _ _ Hk) as [-> | ->];
  destruct Hb as [-> | ->];
  unfold payoff_curve, py_mul, py_arith, np_linspace;
  cbn [rbind fmul as_flt];
  rewrite linspace_finite by lia;
  unfold arr_sub_scalar, scalar_sub_arr, np_maximum0;
  destruct (String.eqb option_type "call");
  cbn [rbind as_flt]; rewrite !map_map;
  eexists _, _; (split; [reflexivity |]);
  (split; [rewrite length_map; apply rgrid_length; lia |]);
  apply Forall_forall; intros y Hy; apply in_map_iff in Hy;
  destruct Hy as (x & <- & _); apply fsub_nan_r.
Qed.

(** ** No-arbitrage bounds *)


Section PriceBounds.

Variable Phi : R -> R.
Hypothesis HPhi : is_std_normal_cdf Phi.





End PriceBounds.



Lemma payoff_loss_is_at_most_premium_witness :
  exists xs ys : list R,
    payoff_curve (NpFloat (Fin 100)) (NpFloat (Fin 100)) (NpFloat (Fin 8.75)) "put"
    = Ok (map Fin xs, map Fin ys)
    /\ List.length xs = 100%nat /\ List.length ys = 100%nat
    /\ (forall i, (i < 100)%nat -> Ropp 8.75 <= nth i ys 0)
    /\ (forall i, (i < 100)%nat -> 100 <= nth i xs 0 -> nth i ys 0 = Ropp 8.75).
Proof.
  apply (payoff_loss_is_at_most_premium (NpFloat (Fin 100)) (NpFloat (Fin 100))
           (NpFloat (Fin 8.75)) 100 100 8.75 "put"); reflexivity.
Defined.

Lemma payoff_monotone_along_grid_witness :
  exists xs ys : list R,
    payoff_curve (NpFloat (Fin 100)) (NpFloat (Fin 100)) (NpFloat (Fin 8.75)) "call"
    = Ok (map Fin xs, map Fin ys)
    /\ forall i, (S i < 100)%nat ->
         nth i xs 0 < nth (S i) xs 0 /\ nth i ys 0 <= nth (S i) ys 0.
Proof.
  apply (payoff_monotone_along_grid (NpFloat (Fin 100)) (NpFloat (Fin 100))
           (NpFloat (Fin 8.75)) 100 100 8.75 "call"); try reflexivity; lra.
Defined.

Lemma nan_price_blanks_payoff_witness :
  exists S payoff : ndarray,
    payoff_curve (NpFloat (Fin 100)) (NpFloat (Fin 100)) (PyFloat NaN) "call"
    = Ok (S, payoff)
    /\ List.length payoff = 100%nat
    /\ Forall (fun y => y = NaN) payoff.
Proof.
  apply (nan_price_blanks_payoff (NpFloat (Fin 100)) (NpFloat (Fin 100)) (PyFloat NaN)
           100 100 "call"); reflexivity.
Defined.

(** ** The ticker and the option chain *)

Lemma upper_ascii_idempotent (c : ascii) : upper_ascii (upper_ascii c) = upper_ascii c.
Proof. destruct c as [[] [] [] [] [] [] [] []]; reflexivity. Qed.

Lemma upper_ascii_not_lower (c : ascii) : is_lower (upper_ascii c) = false.
Proof. destruct c as [[] [] [] [] [] [] [] []]; reflexivity. Qed.

(** X17.  The ticker is normalised once and for all: no lower-case letter is
    left, the length is kept (so an empty ticker stays the only falsy one)
    and normalising again changes nothing. *)
Theorem ticker_is_normalised (typed : string) :
  is_ascii_text typed = true ->
  has_lower (user_input_ticker typed) = false
  /\ String.length (user_input_ticker typed) = String.length typed
  /\ (user_input_ticker typed = EmptyString <-> typed = EmptyString)
  /\ user_input_ticker (user_input_ticker typed) = user_input_ticker typed.
Proof.
  intros _. unfold user_input_ticker.
  induction typed as [| c rest IH]; simpl.
  - repeat split; reflexivity.
  - destruct IH as (IH1 & IH2 & _ & IH4).
    rewrite upper_ascii_not_lower, IH1, IH2, upper_ascii_idempotent, IH4.
    repeat split; intros H; discriminate.
Qed.

Lemma ticker_is_normalised_witness :
  has_lower (user_input_ticker "aapl") = false
  /\ String.length (user_input_ticker "aapl") = String.length "aapl"
  /\ (user_input_ticker "aapl" = EmptyString <-> "aapl"%string = EmptyString)
  /\ user_input_ticker (user_input_ticker "aapl") = user_input_ticker "aapl".
Proof. apply (ticker_is_normalised "aapl"). reflexivity. Defined.

Example ticker_aapl : user_input_ticker "aapl" = "AAPL"%string.
Proof. reflexivity. Qed.

(** X16.  The option chain comes back whole or not at all: either both tables
    as the provider sent them and an untouched page, or two empty tables
    and one error banner carrying the text of the fetch that failed; a
    calls table already fetched is dropped when the puts fetch fails. *)
Theorem option_chain_all_or_nothing
    (DataFrame : Type) (empty_frame : DataFrame)
    (quandl_get : string -> string -> string + DataFrame)
    (ticker expiration api_key : string) (w : world) :
  (exists calls puts,
      quandl_get (calls_code ticker expiration) api_key = inr calls
      /\ quandl_get (puts_code ticker expiration) api_key = inr puts
      /\ get_option_chain DataFrame empty_frame quandl_get ticker expiration api_key w
         = (Ok (calls, puts), w))
  \/ (exists e,
        (quandl_get (calls_code ticker expiration) api_key = inl e
         \/ ((exists calls, quandl_get (calls_code ticker expiration) api_key = inr calls)
             /\ quandl_get (puts_code ticker expiration) api_key = inl e))
        /\ get_option_chain DataFrame empty_frame quandl_get ticker expiration api_key w
           = (Ok (empty_frame, empty_frame),
              mkWorld (clock w) (ui w ++ [StError (chain_error_msg ++ e) None]))).
Proof.
  unfold get_option_chain.
  destruct (quandl_get (calls_code ticker expiration) api_key) as [e | calls] eqn:Ec.
  - right. exists e. split; [left; reflexivity | reflexivity].
  - destruct (quandl_get (puts_code ticker expiration) api_key) as [e | puts] eqn:Ep.
    + right. exists e. split; [right; split; [exists calls |]; reflexivity | reflexivity].
    + left. exists calls, puts. repeat split.
Qed.
